(** * DETR training script ([d2/train_net.py]): a shallow embedding

    The script customises three extension points of the detectron2
    trainer (evaluator, train loader, optimizer) and assembles the
    configuration in [setup].  Python floats are IEEE binary64 numbers,
    modelled by Rocq's primitive floats; Python strings by [string];
    the [memo] set by a [gset] of parameter references; exceptions by
    an error monad. *)

From Stdlib Require Import PrimFloat Ascii.
From stdpp Require Import gmap strings list sets.

Open Scope string_scope.
Open Scope list_scope.
Set Warnings "-inexact-float,-clear-no-such-hyp".

(** ** Exceptions and the error monad *)

Inductive Exn : Type :=
  | NotImplementedError (msg : string)
  | ValueError (msg : string)
  | AttributeError (msg : string)
  | FrameworkError (msg : string).

Inductive Res (A : Type) : Type :=
  | Ok (a : A)
  | Raise (e : Exn).
Arguments Ok {A} a.
Arguments Raise {A} e.

#[global] Instance Res_ret : MRet Res := λ A a, Ok a.
#[global] Instance Res_bind : MBind Res := λ A B k m,
  match m with
  | Ok a => k a
  | Raise e => Raise e
  end.

(** ** Strings: Python's [needle in haystack] *)

Fixpoint startswith (needle hay : string) : bool :=
  match needle, hay with
  | EmptyString, _ => true
  | String a n', String b h' => if Ascii.eqb a b then startswith n' h' else false
  | String _ _, EmptyString => false
  end.

Fixpoint str_in (needle hay : string) : bool :=
  startswith needle hay ||
  match hay with
  | EmptyString => false
  | String _ h' => str_in needle h'
  end.

(** ** Configuration nodes read by the trainer *)

Module CfgNode.
Record ClipGradients : Type := mkClipGradients {
    ENABLED : bool;
    CLIP_TYPE : string;
    CLIP_VALUE : float;
}.

Record Solver : Type := mkSolver {
    BASE_LR : float;
    WEIGHT_DECAY : float;
    BACKBONE_MULTIPLIER : float;
    MOMENTUM : float;
    OPTIMIZER : string;
    CLIP_GRADIENTS : ClipGradients;
}.

Record Model : Type := mkModel {
    META_ARCHITECTURE : string;
}.

Record t : Type := mk {
    SOLVER : Solver;
    MODEL : Model;
    OUTPUT_DIR : string;
}.
End CfgNode.
Import CfgNode.

Abbreviation Cfg := CfgNode.t.

(** ** Modules and their parameters

    A [torch.nn.Parameter] is an object; the [memo] set holds objects by
    identity, so a parameter is modelled by its reference and its
    [requires_grad] attribute is read through the module.  The same
    reference may be yielded under several names. *)

Definition ParamRef : Type := nat.

Record Module_ : Type := mkModule {
  named_parameters : list (string * ParamRef);
  requires_grad : ParamRef → bool;
}.

(** One entry of [params]:
    [{"params": [value], "lr": lr, "weight_decay": weight_decay}]. *)
Record ParamGroup : Type := mkParamGroup {
  pg_params : list ParamRef;
  pg_lr : float;
  pg_weight_decay : float;
}.

(** ** [Trainer.build_optimizer]: the parameter-group loop

    [loop_body] is one turn of [for key, value in
    model.named_parameters(recurse=True)] on the pair [(params, memo)];
    [build_params] runs it from [params = []] and [memo = set()] and
    gives the list handed to the optimizer constructor. *)

Definition loop_body (cfg : Cfg) (model : Module_)
    (st : list ParamGroup * gset ParamRef) (kv : string * ParamRef)
    : list ParamGroup * gset ParamRef :=
  let '(params, memo) := st in
  let '(key, value) := kv in
  if negb (requires_grad model value) then (params, memo)
  else if decide (value ∈ memo) then (params, memo)
  else
    let memo := {[value]} ∪ memo in
    let lr := BASE_LR (SOLVER cfg) in
    let weight_decay := WEIGHT_DECAY (SOLVER cfg) in
    let lr := if str_in "backbone" key
              then (lr * BACKBONE_MULTIPLIER (SOLVER cfg))%float else lr in
    (params ++ [mkParamGroup [value] lr weight_decay], memo).

Definition build_params (cfg : Cfg) (model : Module_) : list ParamGroup :=
  fst (fold_left (loop_body cfg model) (named_parameters model) ([], ∅)).

(** ** [Trainer.build_optimizer]: optimizer classes and clipping

    An optimizer object is its class together with the constructor
    arguments.  [FullModelGradientClippingOptimizer] is the local
    subclass of [optim]; [OptimizerWithGradientClip] stands for the
    subclass that detectron2's per-parameter-group clipping generates. *)

Inductive OptimClass : Type :=
  | SGD
  | AdamW
  | FullModelGradientClippingOptimizer (optim : OptimClass) (clip_norm_val : float)
  | OptimizerWithGradientClip (optim : OptimClass).

Record Optimizer : Type := mkOptimizer {
  opt_class : OptimClass;
  param_groups : list ParamGroup;
  opt_lr : float;
  opt_momentum : option float;
}.

Definition maybe_add_full_model_gradient_clipping (cfg : Cfg) (optim : OptimClass)
    : OptimClass :=
  let clip_norm_val := CLIP_VALUE (CLIP_GRADIENTS (SOLVER cfg)) in
  let enable :=
    ENABLED (CLIP_GRADIENTS (SOLVER cfg))
    && String.eqb (CLIP_TYPE (CLIP_GRADIENTS (SOLVER cfg))) "full_model"
    && PrimFloat.ltb 0 clip_norm_val in
  if enable then FullModelGradientClippingOptimizer optim clip_norm_val else optim.

Section BuildOptimizer.
(** The constructors of the torch classes validate their arguments and
    raise on those they refuse (an empty parameter list, a negative
    rate, ...).  Which arguments are refused is torch's business:
    [torch_rejects] is a parameter of the embedding and gives the
    exception raised, if any.  When the constructor accepts, the object
    is its class with the arguments. *)
Variable torch_rejects : OptimClass → list ParamGroup → float → option float → option Exn.

(** [detectron2.solver.build.maybe_add_gradient_clipping] belongs to the
    framework: it is a parameter of the embedding. *)
Variable maybe_add_gradient_clipping : Cfg → Optimizer → Res Optimizer.

(** The call [cls(params, lr)] or [cls(params, lr, momentum=...)]. *)
Definition torch_optim (cls : OptimClass) (params : list ParamGroup) (lr : float)
    (momentum : option float) : Res Optimizer :=
  match torch_rejects cls params lr momentum with
  | Some e => Raise e
  | None => Ok (mkOptimizer cls params lr momentum)
  end.

Definition build_optimizer (cfg : Cfg) (model : Module_) : Res Optimizer :=
  let params := build_params cfg model in
  let optimizer_type := OPTIMIZER (SOLVER cfg) in
  optimizer ←
    (if String.eqb optimizer_type "SGD" then
       torch_optim (maybe_add_full_model_gradient_clipping cfg SGD)
         params (BASE_LR (SOLVER cfg)) (Some (MOMENTUM (SOLVER cfg)))
     else if String.eqb optimizer_type "ADAMW" then
       torch_optim (maybe_add_full_model_gradient_clipping cfg AdamW)
         params (BASE_LR (SOLVER cfg)) None
     else Raise (NotImplementedError ("no optimizer type " +:+ optimizer_type)));
  if negb (String.eqb (CLIP_TYPE (CLIP_GRADIENTS (SOLVER cfg))) "full_model")
  then maybe_add_gradient_clipping cfg optimizer
  else Ok optimizer.

End BuildOptimizer.

(** ** [Trainer.build_evaluator] and [Trainer.build_train_loader] *)

Fixpoint endswith_sep (s : string) : bool :=
  match s with
  | EmptyString => false
  | String c EmptyString => Ascii.eqb c "/"%char
  | String _ s' => endswith_sep s'
  end.

(** [os.path.join] on two components, as [posixpath] defines it. *)
Definition os_path_join (a b : string) : string :=
  if startswith "/" b then b
  else if String.eqb a "" || endswith_sep a then a +:+ b
  else a +:+ "/" +:+ b.

(** [COCOEvaluator(dataset_name, cfg, distributed, output_dir)]. *)
Record COCOEvaluator : Type := mkCOCOEvaluator {
  ev_dataset_name : string;
  ev_cfg : Cfg;
  ev_distributed : bool;
  ev_output_dir : string;
}.

Definition build_evaluator (cfg : Cfg) (dataset_name : string)
    (output_folder : option string) : COCOEvaluator :=
  let output_folder :=
    match output_folder with
    | None => os_path_join (OUTPUT_DIR cfg) "inference"
    | Some folder => folder
    end in
  mkCOCOEvaluator dataset_name cfg true output_folder.

(** Modelled from the spec: the dataset-mapper class of [d2/detr] is not
    among the sources; a mapper object is the record of its construction
    [DetrDatasetMapper(cfg, is_train)]. *)
Record DetrDatasetMapper : Type := mkDetrDatasetMapper {
  dm_cfg : Cfg;
  dm_is_train : bool;
}.

Section BuildTrainLoader.
(** [detectron2.data.build_detection_train_loader(cfg, mapper=...)]. *)
Context {Loader : Type}.
Variable build_detection_train_loader : Cfg → option DetrDatasetMapper → Loader.

Definition build_train_loader (cfg : Cfg) : Loader :=
  let mapper :=
    if String.eqb "Detr" (META_ARCHITECTURE (MODEL cfg))
    then Some (mkDetrDatasetMapper cfg true)
    else None in
  build_detection_train_loader cfg mapper.

End BuildTrainLoader.

(** ** [setup] and the configuration framework

    [get_cfg], [merge_from_file], [merge_from_list], [freeze] and
    [default_setup] are detectron2's (yacs'); [add_detr_config] lives in
    [d2/detr].  They are an interface here.  A configuration node is a
    mutable object: each operation returns the node's next state. *)

Record Args : Type := mkArgs {
  config_file : string;
  opts : list string;
}.

Class ConfigOps (C : Type) : Type := {
  get_cfg : C;
  add_detr_config : C → C;
  merge_from_file : string → C → Res C;
  merge_from_list : list string → C → Res C;
  freeze : C → C;
  is_frozen : C → bool;
  (** the assignment [cfg.KEY = value] *)
  setattr : string → string → C → Res C;
  (** logging, seeding, output directory: reads the node only *)
  default_setup : C → Args → Res unit;
}.

Section Setup.
Context {C : Type} `{!ConfigOps C}.

Definition setup (args : Args) : Res C :=
  let cfg := get_cfg in
  let cfg := add_detr_config cfg in
  cfg ← merge_from_file (config_file args) cfg;
  cfg ← merge_from_list (opts args) cfg;
  let cfg := freeze cfg in
  _ ← default_setup cfg args;
  Ok cfg.


End Setup.


(** *** A dictionary instance of the interface

    Keys are dotted paths; a merge may only override keys that exist;
    files are looked up in [files].  As in yacs, attribute assignment
    looks at the frozen flag, while the merges write the entries through
    item assignment and do not. *)

Record DictCfg : Type := mkDictCfg {
  entries : gmap string string;
  immutable : bool;
}.

Definition override (kv : string * string) (c : DictCfg) : Res DictCfg :=
  match entries c !! kv.1 with
  | Some _ => Ok (mkDictCfg (<[kv.1 := kv.2]> (entries c)) (immutable c))
  | None => Raise (FrameworkError ("Non-existent config key: " +:+ kv.1))
  end.

Fixpoint override_all (kvs : list (string * string)) (c : DictCfg) : Res DictCfg :=
  match kvs with
  | [] => Ok c
  | kv :: kvs' => c' ← override kv c; override_all kvs' c'
  end.

Fixpoint pairs (l : list string) : Res (list (string * string)) :=
  match l with
  | [] => Ok []
  | k :: v :: l' => ps ← pairs l'; Ok ((k, v) :: ps)
  | [_] => Raise (FrameworkError "Override list has odd length")
  end.

Definition dict_config (defaults extension : gmap string string)
    (files : gmap string (list (string * string))) : ConfigOps DictCfg := {|
  get_cfg := mkDictCfg defaults false;
  add_detr_config c := mkDictCfg (extension ∪ entries c) (immutable c);
  merge_from_file path c :=
    match files !! path with
    | Some kvs => override_all kvs c
    | None => Raise (FrameworkError ("No such file: " +:+ path))
    end;
  merge_from_list l c := kvs ← pairs l; override_all kvs c;
  freeze c := mkDictCfg (entries c) true;
  is_frozen := immutable;
  setattr k v c :=
    if immutable c
    then Raise (FrameworkError
                  ("Attempted to set " +:+ k +:+ " to " +:+ v +:+ ", but CfgNode is immutable"))
    else Ok (mkDictCfg (<[k := v]> (entries c)) (immutable c));
  default_setup _ _ := Ok ();
|}.

(** ** Concrete inputs *)

Definition cfg_full_model : Cfg :=
  mk (mkSolver 0.0001 0.0001 0.1 0.9 "ADAMW" (mkClipGradients true "full_model" 0.01))
     (mkModel "Detr") "./output".

Definition cfg_full_model_disabled : Cfg :=
  mk (mkSolver 0.0001 0.0001 0.1 0.9 "ADAMW" (mkClipGradients false "full_model" 0.01))
     (mkModel "Detr") "./output".

Definition cfg_rmsprop : Cfg :=
  mk (mkSolver 0.0001 0.0001 0.1 0.9 "RMSprop" (mkClipGradients false "value" 1))
     (mkModel "GeneralizedRCNN") "out/".

(** Two tensors are shared: 1 under a head name first, 2 under a
    backbone name first; tensor 3 is frozen. *)
Definition shared_model : Module_ :=
  mkModule [("transformer.embed.weight", 1); ("backbone.0.body.conv1.weight", 2);
            ("backbone.0.body.bn1.weight", 3); ("backbone.proj.weight", 1);
            ("class_embed.weight", 4); ("input_proj.alias", 2)]
           (λ r, negb (Nat.eqb r 3)).

(** Two of the checks torch's constructors make, in their order: the
    rate first, then the parameter list. *)
Definition torch_argument_check (cls : OptimClass) (params : list ParamGroup)
    (lr : float) (momentum : option float) : option Exn :=
  if PrimFloat.ltb lr 0 then Some (ValueError "Invalid learning rate")
  else match params with
       | [] => Some (ValueError "optimizer got an empty parameter list")
       | _ :: _ => None
       end.

(** A module with every parameter frozen. *)
Definition frozen_model : Module_ :=
  mkModule [("backbone.0.body.conv1.weight", 2); ("class_embed.weight", 4)] (λ _, false).

(** The per-group wrapper at its most eager: it wraps whatever it is given. *)
Definition always_clip_per_group (cfg : Cfg) (o : Optimizer) : Res Optimizer :=
  Ok (mkOptimizer (OptimizerWithGradientClip (opt_class o))
        (param_groups o) (opt_lr o) (opt_momentum o)).

Fixpoint clipping_wrappers (c : OptimClass) : nat :=
  match c with
  | SGD | AdamW => 0
  | FullModelGradientClippingOptimizer optim _ => S (clipping_wrappers optim)
  | OptimizerWithGradientClip optim => S (clipping_wrappers optim)
  end.

Definition detr_files : gmap string (list (string * string)) :=
  {[ "configs/detr_256_6_6_torchvision.yaml" :=
       [("MODEL.META_ARCHITECTURE", "Detr"); ("SOLVER.BASE_LR", "0.0001");
        ("SOLVER.IMS_PER_BATCH", "64")] ]}.

Definition d2_defaults : gmap string string :=
  {[ "MODEL.META_ARCHITECTURE" := "GeneralizedRCNN"; "SOLVER.BASE_LR" := "0.001";
     "SOLVER.IMS_PER_BATCH" := "16"; "OUTPUT_DIR" := "./output" ]}.

Definition detr_extension : gmap string string :=
  {[ "SOLVER.OPTIMIZER" := "ADAMW"; "SOLVER.BACKBONE_MULTIPLIER" := "0.1" ]}.

Definition detr_args : Args :=
  mkArgs "configs/detr_256_6_6_torchvision.yaml"
         ["SOLVER.IMS_PER_BATCH"; "5"; "OUTPUT_DIR"; "detr_testing"].

(** One tensor under two names, the head name first. *)
Definition alias_model : Module_ :=
  mkModule [("transformer.embed.weight", 1); ("backbone.proj.weight", 1)] (λ _, true).

(** ** Specification vocabulary for the parameter-group loop *)

(** The hyperparameters a name selects. *)
Definition lr_for (cfg : Cfg) (key : string) : float :=
  if str_in "backbone" key
  then (BASE_LR (SOLVER cfg) * BACKBONE_MULTIPLIER (SOLVER cfg))%float
  else BASE_LR (SOLVER cfg).

Definition group_of (cfg : Cfg) (kv : string * ParamRef) : ParamGroup :=
  mkParamGroup [kv.2] (lr_for cfg kv.1) (WEIGHT_DECAY (SOLVER cfg)).

(** The entries of an iteration that open a group, given what [memo]
    already holds: trainable and not seen before. *)
Fixpoint first_trainable (model : Module_) (memo : gset ParamRef)
    (l : list (string * ParamRef)) : list (string * ParamRef) :=
  match l with
  | [] => []
  | kv :: l' =>
      if requires_grad model kv.2 && bool_decide (kv.2 ∉ memo)
      then kv :: first_trainable model ({[kv.2]} ∪ memo) l'
      else first_trainable model memo l'
  end.

(** [(key, value)] is yielded at a position where [value] has not been
    yielded before. *)
Definition first_name_of (model : Module_) (key : string) (value : ParamRef) : Prop :=
  ∃ l1 l2, named_parameters model = l1 ++ (key, value) :: l2 ∧ value ∉ (l1.*2).

(** Weight sharing: a trainable tensor is yielded at two positions. *)
Definition shares_weights (model : Module_) : Prop :=
  ∃ i j k1 k2 value, i ≠ j ∧
    named_parameters model !! i = Some (k1, value) ∧
    named_parameters model !! j = Some (k2, value) ∧
    requires_grad model value = true.

(** The groups that hold a given tensor. *)
Definition groups_with (value : ParamRef) (groups : list ParamGroup) : list ParamGroup :=
  filter (λ g, value ∈ pg_params g) groups.

(** ** Specification vocabulary for gradient clipping *)

(** The flag/value check of [maybe_add_full_model_gradient_clipping]. *)
Definition full_model_enabled (cfg : Cfg) : bool :=
  ENABLED (CLIP_GRADIENTS (SOLVER cfg))
  && String.eqb (CLIP_TYPE (CLIP_GRADIENTS (SOLVER cfg))) "full_model"
  && PrimFloat.ltb 0 (CLIP_VALUE (CLIP_GRADIENTS (SOLVER cfg))).

Definition is_base (c : OptimClass) : Prop := c = SGD ∨ c = AdamW.

(** "Exactly one strategy": the full-model wrapper when the check
    passes, the per-group wrapper otherwise. *)
Definition exactly_one_clipping
    (check : OptimClass → list ParamGroup → float → option float → option Exn)
    (g : Cfg → Optimizer → Res Optimizer)
    (cfg : Cfg) (model : Module_) : Prop :=
  ∀ o, build_optimizer check g cfg model = Ok o →
    if full_model_enabled cfg
    then ∃ b, opt_class o
                = FullModelGradientClippingOptimizer b (CLIP_VALUE (CLIP_GRADIENTS (SOLVER cfg)))
              ∧ is_base b
    else ∃ b, opt_class o = OptimizerWithGradientClip b ∧ is_base b.

(** ** [FullModelGradientClippingOptimizer.step]

    The training state and torch's operations on it
    ([torch.nn.utils.clip_grad_norm_], the [step] of the torch classes and
    of the classes the framework generates) are parameters.  [step cls]
    is the method as resolved on class [cls]; the local subclass clips,
    calls [super().step(closure=closure)] and returns nothing. *)

Section Step.
Context {S Closure Loss : Type}.
Variable clip_grad_norm_ : list ParamRef → float → S → S.
Variable torch_step : OptimClass → Optimizer → option Closure → S → option Loss * S.

Fixpoint step (cls : OptimClass) (self : Optimizer) (closure : option Closure)
    (s : S) : option Loss * S :=
  match cls with
  | FullModelGradientClippingOptimizer optim clip_norm_val =>
      let all_params := concat (pg_params <$> param_groups self) in
      let s := clip_grad_norm_ all_params clip_norm_val s in
      let r := step optim self closure s in
      (None, r.2)
  | _ => torch_step cls self closure s
  end.

End Step.

(** ** [main]

    [main] is a sequence of framework calls.  A run carries the log of
    the calls made so far; a call is logged when it is made, whether it
    returns or raises. *)

Record Namespace : Type := mkNamespace {
  setup_args : Args;
  eval_only : bool;
  resume : bool;
}.

Inductive Event : Type :=
  | ESetup
  | EPrint (line : string)
  | EBuildModel
  | ECheckpointerResumeOrLoad (save_dir weights : string) (resume : bool)
  | ETest
  | EVerifyResults
  | ETrainer
  | ETrainerResumeOrLoad (resume : bool)
  | ETrain.

Definition Run (A : Type) : Type := list Event → list Event * Res A.

#[global] Instance Run_ret : MRet Run := λ A a log, (log, Ok a).
#[global] Instance Run_bind : MBind Run := λ A B k m log,
  match m log with
  | (log', Ok a) => k a log'
  | (log', Raise e) => (log', Raise e)
  end.

Definition call {A : Type} (ev : Event) (r : Res A) : Run A :=
  λ log, (log ++ [ev], r).

(** An expression of [main] itself (an attribute read): not a call. *)
Definition eval_expr {A : Type} (r : Res A) : Run A :=
  λ log, (log, r).

Class TrainerOps (C Net Trainer Results : Type) : Type := {
  (** the reads [cfg.OUTPUT_DIR] and [cfg.MODEL.WEIGHTS]: a missing key
      raises [AttributeError] *)
  cfg_OUTPUT_DIR : C → Res string;
  cfg_MODEL_WEIGHTS : C → Res string;
  cfg_repr : C → string;
  build_model : C → Res Net;
  (** [DetectionCheckpointer(model, save_dir=...).resume_or_load(path, resume=...)] *)
  checkpointer_resume_or_load : Net → string → string → bool → Res Net;
  test : C → Net → Res Results;
  is_main_process : bool;
  verify_results : C → Results → Res ();
  new_Trainer : C → Res Trainer;
  trainer_resume_or_load : Trainer → bool → Res Trainer;
  train : Trainer → Res Results;
}.

Section Main.
Context {C Net Trainer Results : Type}.
Context `{!ConfigOps C, !TrainerOps C Net Trainer Results}.

Definition main (args : Namespace) : Run Results :=
  cfg ← call ESetup (setup (setup_args args));
  _ ← call (EPrint ("cfg: " +:+ cfg_repr cfg)) (Ok ());
  if eval_only args then
    model ← call EBuildModel (build_model cfg);
    save_dir ← eval_expr (cfg_OUTPUT_DIR cfg);
    weights ← eval_expr (cfg_MODEL_WEIGHTS cfg);
    model ← call (ECheckpointerResumeOrLoad save_dir weights (resume args))
               (checkpointer_resume_or_load model save_dir weights (resume args));
    res ← call ETest (test cfg model);
    _ ← (if is_main_process then call EVerifyResults (verify_results cfg res)
         else mret ());
    mret res
  else
    trainer ← call ETrainer (new_Trainer cfg);
    trainer ← call (ETrainerResumeOrLoad (resume args))
                 (trainer_resume_or_load trainer (resume args));
    call ETrain (train trainer).

End Main.

Definition is_training_event (ev : Event) : bool :=
  match ev with
  | ETrainer | ETrainerResumeOrLoad _ | ETrain => true
  | _ => false
  end.

Definition is_evaluation_event (ev : Event) : bool :=
  match ev with
  | EBuildModel | ECheckpointerResumeOrLoad _ _ _ | ETest | EVerifyResults => true
  | _ => false
  end.

(** A framework instance over the dictionary configuration: models,
    trainers and results are numbers, and verification rejects a result
    of 0. *)
Definition dict_trainer (main_process : bool) : TrainerOps DictCfg nat nat nat := {|
  cfg_OUTPUT_DIR c :=
    match entries c !! "OUTPUT_DIR" with
    | Some dir => Ok dir
    | None => Raise (AttributeError "OUTPUT_DIR")
    end;
  cfg_MODEL_WEIGHTS c :=
    match entries c !! "MODEL.WEIGHTS" with
    | Some path => Ok path
    | None => Raise (AttributeError "WEIGHTS")
    end;
  cfg_repr c := default "" (entries c !! "MODEL.META_ARCHITECTURE");
  build_model _ := Ok 1;
  checkpointer_resume_or_load m _ _ _ := Ok (m + 1);
  test _ m := Ok (m + 40);
  is_main_process := main_process;
  verify_results _ res := if Nat.eqb res 0 then Raise (FrameworkError "results differ") else Ok ();
  new_Trainer _ := Ok 7;
  trainer_resume_or_load t _ := Ok t;
  train t := Ok (t * 2);
|}.

Definition detr_eval_args : Namespace := mkNamespace detr_args true false.

(** The defaults with the key [main] reads in evaluation mode. *)
Definition d2_defaults_weights : gmap string string :=
  <["MODEL.WEIGHTS" := "detectron2://ImageNetPretrained/torchvision/R-50.pkl"]> d2_defaults.

Definition missing_file_args : Namespace :=
  mkNamespace (mkArgs "configs/missing.yaml" []) true false.


(** ** Strings *)

Lemma append_String a s t : String a s +:+ t = String a (s +:+ t).
Proof. reflexivity. Qed.

Lemma append_empty_r s : s +:+ "" = s.
Proof. induction s as [|a s IH]; [done|]. by rewrite append_String, IH. Qed.

Lemma startswith_spec needle hay :
  startswith needle hay = true ↔ ∃ post, hay = needle +:+ post.
Proof.
  revert hay. induction needle as [|a n IH]; intros hay; simpl.
  - split; [intros _; by exists hay | done].
  - destruct hay as [|b h].
    + split; [done | intros [post Hp]; discriminate].
    + setoid_rewrite append_String.
      destruct (Ascii.eqb_spec a b) as [->|Hne].
      * rewrite IH. split; intros [post Hp]; exists post; congruence.
      * split; [done | intros [post Hp]; congruence].
Qed.

Lemma str_in_spec needle hay :
  str_in needle hay = true ↔ ∃ pre post, hay = pre +:+ needle +:+ post.
Proof.
  induction hay as [|b h IH]; simpl; rewrite orb_true_iff.
  - rewrite startswith_spec. split.
    + intros [[post Hp]|?]; [|done]. by exists "", post.
    + intros (pre & post & Hp). left. destruct pre; [by exists post | discriminate].
  - rewrite startswith_spec, IH. split.
    + intros [[post Hp]|(pre & post & Hp)].
      * by exists "", post.
      * exists (String b pre), post. by rewrite append_String, Hp.
    + intros (pre & post & Hp). destruct pre as [|c pre].
      * left. by exists post.
      * right. exists pre, post. rewrite append_String in Hp. congruence.
Qed.

Lemma str_in_append_r pre s : str_in s (pre +:+ s) = true.
Proof. apply str_in_spec. exists pre, "". by rewrite append_empty_r. Qed.

(** ** The parameter-group loop *)

Lemma loop_body_group cfg model params memo key value :
  requires_grad model value = true → value ∉ memo →
  loop_body cfg model (params, memo) (key, value)
  = (params ++ [group_of cfg (key, value)], {[value]} ∪ memo).
Proof.
  intros Hrg Hm. unfold loop_body. rewrite Hrg. simpl.
  destruct (decide (value ∈ memo)); [done|].
  unfold group_of, lr_for. simpl. by destruct (str_in _ _).
Qed.

Lemma loop_body_skip cfg model params memo key value :
  requires_grad model value = false ∨ value ∈ memo →
  loop_body cfg model (params, memo) (key, value) = (params, memo).
Proof.
  intros H. unfold loop_body.
  destruct (requires_grad model value); simpl; [|done].
  destruct (decide (value ∈ memo)); [done|]. by destruct H.
Qed.

Lemma fold_loop_body cfg model l params memo :
  fst (fold_left (loop_body cfg model) l (params, memo))
  = params ++ (group_of cfg <$> first_trainable model memo l).
Proof.
  revert params memo. induction l as [|[key value] l IH]; intros params memo.
  - simpl. by rewrite app_nil_r.
  - cbn [fold_left first_trainable snd].
    destruct (requires_grad model value) eqn:Hrg; cbn [andb].
    + case_bool_decide as Hm.
      * rewrite loop_body_group by done. rewrite IH, fmap_cons.
        by rewrite <- app_assoc.
      * rewrite loop_body_skip; [apply IH|]. by right.
    + rewrite loop_body_skip; [apply IH|]. by left.
Qed.

Lemma build_params_first_trainable cfg model :
  build_params cfg model
  = group_of cfg <$> first_trainable model ∅ (named_parameters model).
Proof. unfold build_params. by rewrite fold_loop_body. Qed.

Lemma first_trainable_elem model memo l key value :
  (key, value) ∈ first_trainable model memo l →
  requires_grad model value = true ∧ (value ∉ memo) ∧
  ∃ l1 l2, l = l1 ++ (key, value) :: l2 ∧ value ∉ (l1.*2).
Proof.
  revert memo. induction l as [|[k0 v0] l IH]; intros memo; simpl.
  - by intros ?%elem_of_nil.
  - destruct (requires_grad model v0) eqn:Hrg; simpl.
    + case_bool_decide as Hm.
      * intros [Heq|Hin]%elem_of_cons.
        -- injection Heq as -> ->. split_and!; [done..|].
           exists [], l. split; [done|]. simpl. apply not_elem_of_nil.
        -- destruct (IH _ Hin) as (Hr & Hnm & l1 & l2 & -> & Hl1).
           split_and!; [done|set_solver|].
           exists ((k0, v0) :: l1), l2. split; [done|]. simpl.
           rewrite not_elem_of_cons. set_solver.
      * intros Hin. destruct (IH _ Hin) as (Hr & Hnm & l1 & l2 & -> & Hl1).
        split_and!; [done..|].
        exists ((k0, v0) :: l1), l2. split; [done|]. simpl.
        rewrite not_elem_of_cons. split; [|done].
        intros ->. by apply Hnm.
    + intros Hin. destruct (IH _ Hin) as (Hr & Hnm & l1 & l2 & -> & Hl1).
      split_and!; [done..|].
      exists ((k0, v0) :: l1), l2. split; [done|]. simpl.
      rewrite not_elem_of_cons. split; [congruence|done].
Qed.

Lemma first_trainable_NoDup model memo l :
  NoDup (first_trainable model memo l).*2.
Proof.
  revert memo. induction l as [|[k0 v0] l IH]; intros memo; simpl.
  - constructor.
  - destruct (requires_grad model v0 && bool_decide (v0 ∉ memo)); [|apply IH].
    simpl. constructor; [|apply IH].
    intros ([k v] & Hv & Hin)%list_elem_of_fmap. simpl in Hv. subst v.
    apply first_trainable_elem in Hin as (_ & Hnm & _). set_solver.
Qed.

Lemma first_trainable_complete model memo l value :
  value ∈ l.*2 → requires_grad model value = true → value ∉ memo →
  value ∈ (first_trainable model memo l).*2.
Proof.
  revert memo. induction l as [|[k0 v0] l IH]; intros memo; simpl.
  - by intros ?%elem_of_nil.
  - intros Hin Hrg Hm. destruct (decide (value = v0)) as [->|Hne].
    + rewrite Hrg. rewrite bool_decide_true by done. simpl. left.
    + apply elem_of_cons in Hin as [?|Hin]; [done|].
      destruct (requires_grad model v0 && bool_decide (v0 ∉ memo)).
      * simpl. right. apply IH; [done..|set_solver].
      * by apply IH.
Qed.

Lemma first_trainable_sublist model memo l :
  first_trainable model memo l `sublist_of` l.
Proof.
  revert memo. induction l as [|[k0 v0] l IH]; intros memo; simpl.
  - constructor.
  - destruct (requires_grad model v0 && bool_decide (v0 ∉ memo)).
    + by apply sublist_skip.
    + by apply sublist_cons.
Qed.

(** A first name is kept, and a kept name is a first name. *)
Lemma first_trainable_first_name model l1 key value l2 memo :
  value ∉ l1.*2 → requires_grad model value = true → value ∉ memo →
  (key, value) ∈ first_trainable model memo (l1 ++ (key, value) :: l2).
Proof.
  revert memo. induction l1 as [|[k0 v0] l1 IH]; intros memo; simpl.
  - intros _ Hrg Hm. rewrite Hrg. rewrite bool_decide_true by done. simpl. left.
  - intros [Hne Hl1]%not_elem_of_cons Hrg Hm.
    destruct (requires_grad model v0 && bool_decide (v0 ∉ memo)).
    + right. apply IH; [done..|set_solver].
    + by apply IH.
Qed.

Lemma groups_with_fmap cfg value (l : list (string * ParamRef)) :
  length (groups_with value (group_of cfg <$> l))
  = length (filter (λ v, value = v) l.*2).
Proof.
  unfold groups_with. induction l as [|[k v] l IH]; [done|].
  rewrite !fmap_cons. rewrite !filter_cons. simpl.
  destruct (decide (value ∈ [v])) as [Hin|Hnin].
  - apply list_elem_of_singleton in Hin. subst v.
    rewrite decide_True by done. simpl. by rewrite IH.
  - rewrite decide_False; [done|]. intros ->. apply Hnin. left.
Qed.

Lemma filter_eq_absent (value : ParamRef) (l : list ParamRef) :
  value ∉ l → filter (λ v, value = v) l = [].
Proof.
  induction l as [|v l IH]; [done|].
  intros [Hne Hl]%not_elem_of_cons.
  rewrite filter_cons, decide_False by done. by apply IH.
Qed.

Lemma filter_eq_NoDup (value : ParamRef) (l : list ParamRef) :
  NoDup l → value ∈ l → length (filter (λ v, value = v) l) = 1.
Proof.
  induction 1 as [|v l Hv Hnd IH]; [by intros ?%elem_of_nil|].
  rewrite filter_cons. intros Hin. destruct (decide (value = v)) as [->|Hne].
  - simpl. by rewrite filter_eq_absent.
  - apply elem_of_cons in Hin as [?|Hin]; [done|]. by apply IH.
Qed.

Lemma groups_with_absent cfg value (l : list (string * ParamRef)) :
  value ∉ l.*2 → groups_with value (group_of cfg <$> l) = [].
Proof.
  unfold groups_with. induction l as [|[k v] l IH]; [done|].
  rewrite !fmap_cons. intros [Hne Hl]%not_elem_of_cons.
  rewrite filter_cons, decide_False; [by apply IH|].
  simpl. by intros ->%list_elem_of_singleton.
Qed.

Lemma groups_with_NoDup cfg key value (l : list (string * ParamRef)) :
  NoDup l.*2 → (key, value) ∈ l →
  groups_with value (group_of cfg <$> l) = [group_of cfg (key, value)].
Proof.
  induction l as [|[k v] l IH]; [by intros _ ?%elem_of_nil|].
  rewrite !fmap_cons. intros [Hv Hnd]%NoDup_cons Hin.
  unfold groups_with. rewrite filter_cons.
  apply elem_of_cons in Hin as [Heq|Hin].
  - injection Heq as <- <-. rewrite decide_True by (simpl; left).
    f_equal. by apply groups_with_absent.
  - rewrite decide_False; [by apply IH|].
    simpl. intros ->%list_elem_of_singleton. apply Hv.
    apply list_elem_of_fmap. by exists (key, v).
Qed.

(** Every yielded tensor has a first name. *)
Lemma first_name_exists (l : list (string * ParamRef)) value :
  value ∈ l.*2 → ∃ key l1 l2, l = l1 ++ (key, value) :: l2 ∧ value ∉ l1.*2.
Proof.
  induction l as [|[k v] l IH]; [by intros ?%elem_of_nil|].
  rewrite fmap_cons. simpl. destruct (decide (value = v)) as [->|Hne].
  - intros _. exists k, [], l. split; [done|]. apply not_elem_of_nil.
  - intros [?|Hin]%elem_of_cons; [done|].
    destruct (IH Hin) as (key & l1 & l2 & -> & Hl1).
    exists key, ((k, v) :: l1), l2. split; [done|].
    rewrite fmap_cons. simpl. by apply not_elem_of_cons.
Qed.

Lemma build_params_tensors cfg model :
  concat (pg_params <$> build_params cfg model)
  = (first_trainable model ∅ (named_parameters model)).*2.
Proof.
  rewrite build_params_first_trainable.
  induction (first_trainable _ _ _) as [|[k v] l IH]; [done|].
  rewrite !fmap_cons. simpl. by rewrite IH.
Qed.

Lemma build_params_elem cfg model g :
  g ∈ build_params cfg model ↔
  ∃ key value, g = group_of cfg (key, value) ∧
    (key, value) ∈ first_trainable model ∅ (named_parameters model).
Proof.
  rewrite build_params_first_trainable, list_elem_of_fmap. split.
  - intros ([k v] & -> & Hin). by exists k, v.
  - intros (k & v & -> & Hin). by exists (k, v).
Qed.

Lemma first_name_kept model key value :
  first_name_of model key value → requires_grad model value = true →
  (key, value) ∈ first_trainable model ∅ (named_parameters model).
Proof.
  intros (l1 & l2 & -> & Hl1) Hrg.
  apply first_trainable_first_name; [done..|]. apply not_elem_of_empty.
Qed.

Lemma NoDup_snd_key (l : list (string * ParamRef)) k k' v :
  NoDup l.*2 → (k, v) ∈ l → (k', v) ∈ l → k = k'.
Proof.
  induction l as [|[k0 v0] l IH]; [by intros _ ?%elem_of_nil|].
  rewrite fmap_cons. intros [Hv Hnd]%NoDup_cons H1 H2.
  assert (∀ k1, (k1, v0) ∈ l → False) as Habs.
  { intros k1 Hk1. apply Hv. apply list_elem_of_fmap. by exists (k1, v0). }
  apply elem_of_cons in H1 as [E1|H1]; apply elem_of_cons in H2 as [E2|H2].
  - congruence.
  - injection E1 as -> ->. by destruct (Habs k').
  - injection E2 as -> ->. by destruct (Habs k).
  - by apply IH.
Qed.

(** ** Claims about the parameter groups *)

(** C1: when some trainable tensor is yielded more than once, every
    trainable tensor that is yielded sits in exactly one group, every
    group holds exactly one such tensor, no tensor occurs twice across
    the groups, and there are as many groups as distinct trainable
    tensors. *)
Theorem build_optimizer_one_group_per_tensor cfg model :
  shares_weights model →
  (∀ value, value ∈ (named_parameters model).*2 →
     requires_grad model value = true →
     length (groups_with value (build_params cfg model)) = 1) ∧
  (∀ g, g ∈ build_params cfg model →
     ∃ value, pg_params g = [value] ∧ value ∈ (named_parameters model).*2 ∧
       requires_grad model value = true) ∧
  NoDup (concat (pg_params <$> build_params cfg model)) ∧
  length (build_params cfg model)
  = size (list_to_set (filter (λ v, requires_grad model v = true)
                         (named_parameters model).*2) : gset ParamRef).
Proof.
  intros _. split_and!.
  - intros value Hin Hrg.
    rewrite build_params_first_trainable, groups_with_fmap.
    apply filter_eq_NoDup; [apply first_trainable_NoDup|].
    apply first_trainable_complete; [done..|]. apply not_elem_of_empty.
  - intros g (key & value & -> & Hin)%build_params_elem.
    apply first_trainable_elem in Hin as (Hrg & _ & l1 & l2 & Hl & _).
    exists value. split_and!; [done| |done].
    rewrite Hl, fmap_app, fmap_cons. apply elem_of_app. right. left.
  - rewrite build_params_tensors. apply first_trainable_NoDup.
  - rewrite build_params_first_trainable, length_fmap.
    rewrite <- (length_fmap snd).
    rewrite <- (size_list_to_set (C := gset ParamRef))
      by apply first_trainable_NoDup.
    f_equal. apply set_eq. intros value.
    rewrite !elem_of_list_to_set, list_elem_of_filter. split.
    + intros ([k v] & -> & Hin)%list_elem_of_fmap. simpl.
      apply first_trainable_elem in Hin as (Hrg & _ & l1 & l2 & Hl & _).
      split; [done|].
      rewrite Hl, fmap_app, fmap_cons. apply elem_of_app. right. left.
    + intros [Hrg Hin].
      apply first_trainable_complete; [done..|]. apply not_elem_of_empty.
Qed.

(** C5: a tensor with [requires_grad] false is in no group. *)
Theorem build_optimizer_skips_frozen cfg model value g :
  requires_grad model value = false →
  g ∈ build_params cfg model →
  value ∉ pg_params g.
Proof.
  intros Hrg (key & v & -> & Hin)%build_params_elem.
  apply first_trainable_elem in Hin as (Hv & _).
  simpl. intros ->%list_elem_of_singleton. congruence.
Qed.

(** C10: a trainable tensor is held by exactly one group, built from
    the first name it is yielded under: the multiplier applies exactly
    when that name contains "backbone".  The groups follow the iteration
    order of the first names: they are the image of a subsequence of
    [named_parameters] that consists of exactly the first names of the
    trainable tensors. *)
Theorem build_optimizer_first_name_wins cfg model key value :
  first_name_of model key value →
  requires_grad model value = true →
  groups_with value (build_params cfg model)
  = [mkParamGroup [value]
       (if str_in "backbone" key
        then (BASE_LR (SOLVER cfg) * BACKBONE_MULTIPLIER (SOLVER cfg))%float
        else BASE_LR (SOLVER cfg))
       (WEIGHT_DECAY (SOLVER cfg))] ∧
  ∃ kept,
    build_params cfg model = group_of cfg <$> kept ∧
    kept `sublist_of` named_parameters model ∧
    NoDup kept.*2 ∧
    ∀ k v, (k, v) ∈ kept ↔ first_name_of model k v ∧ requires_grad model v = true.
Proof.
  intros Hfirst Hrg. split.
  - rewrite build_params_first_trainable.
    rewrite (groups_with_NoDup cfg key value).
    + done.
    + apply first_trainable_NoDup.
    + by apply first_name_kept.
  - exists (first_trainable model ∅ (named_parameters model)). split_and!.
    + apply build_params_first_trainable.
    + apply first_trainable_sublist.
    + apply first_trainable_NoDup.
    + intros k v. split.
      * intros Hin. apply first_trainable_elem in Hin as (Hv & _ & l1 & l2 & Hl & Hl1).
        split; [|done]. by exists l1, l2.
      * intros [Hf Hv]. by apply first_name_kept.
Qed.

Lemma group_by_first_name cfg model key value g :
  first_name_of model key value →
  g ∈ build_params cfg model →
  value ∈ pg_params g →
  g = group_of cfg (key, value).
Proof.
  intros Hfirst (k & v & -> & Hin)%build_params_elem Hv.
  simpl in Hv. apply list_elem_of_singleton in Hv. subst v.
  pose proof Hin as (Hrg & _)%first_trainable_elem.
  f_equal. f_equal.
  eapply NoDup_snd_key; [apply first_trainable_NoDup|done|].
  by apply first_name_kept.
Qed.



Example build_params_shared_model :
  build_params cfg_full_model shared_model
  = [mkParamGroup [1] 0.0001 0.0001;
     mkParamGroup [2] (0.0001 * 0.1) 0.0001;
     mkParamGroup [4] 0.0001 0.0001].
Proof. vm_compute. reflexivity. Qed.

Lemma one_group_per_tensor_shared_model :
  shares_weights shared_model ∧
  length (groups_with 1 (build_params cfg_full_model shared_model)) = 1 ∧
  length (build_params cfg_full_model shared_model) = 3.
Proof.
  assert (shares_weights shared_model) as Hs.
  { exists 0, 3, "transformer.embed.weight", "backbone.proj.weight", 1.
    split_and!; [lia | reflexivity..]. }
  destruct (build_optimizer_one_group_per_tensor cfg_full_model shared_model Hs)
    as (Hone & _ & _ & Hlen).
  split_and!; [exact Hs | | rewrite Hlen; reflexivity].
  apply Hone; [simpl; left | reflexivity].
Defined.

Lemma skips_frozen_shared_model :
  requires_grad shared_model 3 = false ∧
  ∀ g, g ∈ build_params cfg_full_model shared_model → 3 ∉ pg_params g.
Proof.
  split; [reflexivity|]. intros g Hg.
  apply (build_optimizer_skips_frozen cfg_full_model shared_model 3 g); [reflexivity|exact Hg].
Defined.

Lemma first_name_wins_shared_model :
  first_name_of shared_model "transformer.embed.weight" 1 ∧
  str_in "backbone" "backbone.proj.weight" = true ∧
  groups_with 1 (build_params cfg_full_model shared_model)
  = [mkParamGroup [1] 0.0001 0.0001].
Proof.
  assert (first_name_of shared_model "transformer.embed.weight" 1) as Hf.
  { exists [], (tail (named_parameters shared_model)).
    split; [reflexivity | apply not_elem_of_nil]. }
  split_and!; [exact Hf | reflexivity |].
  apply (build_optimizer_first_name_wins cfg_full_model shared_model
           "transformer.embed.weight" 1 Hf eq_refl).
Defined.


(** ** Claims about the optimizer and gradient clipping *)

Lemma maybe_add_full_model_enabled cfg optim :
  maybe_add_full_model_gradient_clipping cfg optim
  = if full_model_enabled cfg
    then FullModelGradientClippingOptimizer optim (CLIP_VALUE (CLIP_GRADIENTS (SOLVER cfg)))
    else optim.
Proof. reflexivity. Qed.

Lemma full_model_enabled_type cfg :
  full_model_enabled cfg = true →
  CLIP_TYPE (CLIP_GRADIENTS (SOLVER cfg)) = "full_model".
Proof.
  unfold full_model_enabled. intros [[_ H]%andb_true_iff _]%andb_true_iff.
  by apply String.eqb_eq.
Qed.

Lemma torch_optim_Ok check cls params lr momentum o :
  torch_optim check cls params lr momentum = Ok o →
  check cls params lr momentum = None ∧ o = mkOptimizer cls params lr momentum.
Proof.
  unfold torch_optim. destruct (check _ _ _ _); [discriminate|].
  by intros [= <-].
Qed.

Lemma build_optimizer_sgd check g cfg model :
  OPTIMIZER (SOLVER cfg) = "SGD" →
  build_optimizer check g cfg model
  = (o ← torch_optim check (maybe_add_full_model_gradient_clipping cfg SGD)
           (build_params cfg model) (BASE_LR (SOLVER cfg)) (Some (MOMENTUM (SOLVER cfg)));
     if negb (String.eqb (CLIP_TYPE (CLIP_GRADIENTS (SOLVER cfg))) "full_model")
     then g cfg o else Ok o).
Proof. intros Hs. unfold build_optimizer. by rewrite Hs. Qed.

Lemma build_optimizer_adamw check g cfg model :
  OPTIMIZER (SOLVER cfg) = "ADAMW" →
  build_optimizer check g cfg model
  = (o ← torch_optim check (maybe_add_full_model_gradient_clipping cfg AdamW)
           (build_params cfg model) (BASE_LR (SOLVER cfg)) None;
     if negb (String.eqb (CLIP_TYPE (CLIP_GRADIENTS (SOLVER cfg))) "full_model")
     then g cfg o else Ok o).
Proof. intros Hs. unfold build_optimizer. by rewrite Hs. Qed.

Lemma bind_full_model (m : Res Optimizer) (g : Optimizer → Res Optimizer) :
  (o ← m; if negb (String.eqb "full_model" "full_model") then g o else Ok o) = m.
Proof. by destruct m. Qed.

Lemma full_model_enabled_off cfg :
  CLIP_TYPE (CLIP_GRADIENTS (SOLVER cfg)) ≠ "full_model" →
  full_model_enabled cfg = false.
Proof.
  intros Hty. destruct (full_model_enabled cfg) eqn:E; [|done].
  by apply full_model_enabled_type in E.
Qed.

(** C4: any optimizer type other than "SGD" and "ADAMW" makes
    [build_optimizer] raise [NotImplementedError] with a message that
    ends in the offending string, whatever the torch constructors and
    the framework would have done: no optimizer is built. *)
Theorem build_optimizer_unsupported_type check g cfg model :
  OPTIMIZER (SOLVER cfg) ≠ "SGD" →
  OPTIMIZER (SOLVER cfg) ≠ "ADAMW" →
  build_optimizer check g cfg model
  = Raise (NotImplementedError ("no optimizer type " +:+ OPTIMIZER (SOLVER cfg))) ∧
  str_in (OPTIMIZER (SOLVER cfg)) ("no optimizer type " +:+ OPTIMIZER (SOLVER cfg)) = true.
Proof.
  intros Hsgd Hadamw. split; [|apply str_in_append_r].
  unfold build_optimizer.
  apply String.eqb_neq in Hsgd, Hadamw. by rewrite Hsgd, Hadamw.
Qed.

Lemma unsupported_type_rmsprop :
  build_optimizer torch_argument_check always_clip_per_group cfg_rmsprop shared_model
  = Raise (NotImplementedError "no optimizer type RMSprop").
Proof.
  apply (build_optimizer_unsupported_type torch_argument_check always_clip_per_group
           cfg_rmsprop shared_model);
    discriminate.
Defined.

(** C6: with CLIP_TYPE "full_model" and clipping disabled or a clip
    value that is not strictly positive, [build_optimizer] is the bare
    constructor call of the base class over the computed groups: it
    returns what that call returns and raises what it raises, and the
    framework's wrapper is not consulted.  An optimizer that is returned
    is of the base class, with no clipping wrapper. *)
Theorem build_optimizer_full_model_off check g cfg model :
  CLIP_TYPE (CLIP_GRADIENTS (SOLVER cfg)) = "full_model" →
  ENABLED (CLIP_GRADIENTS (SOLVER cfg)) = false
  ∨ PrimFloat.ltb 0 (CLIP_VALUE (CLIP_GRADIENTS (SOLVER cfg))) = false →
  (OPTIMIZER (SOLVER cfg) = "SGD" →
     build_optimizer check g cfg model
     = torch_optim check SGD (build_params cfg model) (BASE_LR (SOLVER cfg))
         (Some (MOMENTUM (SOLVER cfg)))) ∧
  (OPTIMIZER (SOLVER cfg) = "ADAMW" →
     build_optimizer check g cfg model
     = torch_optim check AdamW (build_params cfg model) (BASE_LR (SOLVER cfg)) None) ∧
  (∀ o, build_optimizer check g cfg model = Ok o →
     is_base (opt_class o) ∧ clipping_wrappers (opt_class o) = 0 ∧
     param_groups o = build_params cfg model).
Proof.
  intros Htype Hoff.
  assert (full_model_enabled cfg = false) as Hen.
  { unfold full_model_enabled. destruct Hoff as [-> | ->]; [done|].
    apply andb_false_r. }
  assert (∀ c, maybe_add_full_model_gradient_clipping cfg c = c) as Hplain.
  { intros c. by rewrite maybe_add_full_model_enabled, Hen. }
  split_and!.
  - intros Hs. rewrite build_optimizer_sgd by done.
    by rewrite Htype, bind_full_model, Hplain.
  - intros Hs. rewrite build_optimizer_adamw by done.
    by rewrite Htype, bind_full_model, Hplain.
  - intros o. unfold build_optimizer. rewrite !Hplain, Htype.
    destruct (String.eqb _ "SGD"); [|destruct (String.eqb _ "ADAMW")];
      rewrite ?bind_full_model; [| |discriminate].
    + intros (_ & ->)%torch_optim_Ok. split_and!; [by left|done..].
    + intros (_ & ->)%torch_optim_Ok. split_and!; [by right|done..].
Qed.

Lemma full_model_off_adamw :
  build_optimizer torch_argument_check always_clip_per_group
    cfg_full_model_disabled shared_model
  = Ok (mkOptimizer AdamW (build_params cfg_full_model_disabled shared_model) 0.0001 None).
Proof.
  destruct (build_optimizer_full_model_off torch_argument_check always_clip_per_group
              cfg_full_model_disabled shared_model eq_refl (or_introl eq_refl))
    as (_ & Hadamw & _).
  rewrite (Hadamw eq_refl). reflexivity.
Defined.

(** With every parameter frozen the groups are empty and the
    constructor refuses them: nothing is returned. *)
Example build_optimizer_frozen_model :
  build_optimizer torch_argument_check always_clip_per_group cfg_full_model frozen_model
  = Raise (ValueError "optimizer got an empty parameter list").
Proof. reflexivity. Qed.

(** C3 as stated fails: with CLIP_TYPE "full_model" and clipping
    disabled the optimizer carries no wrapper, even for a framework
    wrapper that would clip whatever it is handed. *)
Lemma exactly_one_clipping_fails :
  ¬ exactly_one_clipping torch_argument_check always_clip_per_group
      cfg_full_model_disabled shared_model.
Proof.
  intros H. specialize (H _ eq_refl). vm_compute in H.
  destruct H as (b & Hb & _). discriminate.
Qed.

(** C3, as the code has it: for a supported optimizer type at most one
    wrapper is applied.  The optimizer is constructed from the
    full-model clipping subclass exactly when the check passes, and then
    CLIP_TYPE is "full_model" and the framework's wrapper is not called;
    the framework's [maybe_add_gradient_clipping] is called exactly when
    CLIP_TYPE is not "full_model", on the optimizer constructed from the
    bare base class; with CLIP_TYPE "full_model" and a failing check
    neither is applied.  In each case what the constructor raises is
    raised. *)
Theorem build_optimizer_clipping check g cfg model :
  OPTIMIZER (SOLVER cfg) = "SGD" ∨ OPTIMIZER (SOLVER cfg) = "ADAMW" →
  ∃ base momentum,
    is_base base ∧
    (full_model_enabled cfg = true →
       CLIP_TYPE (CLIP_GRADIENTS (SOLVER cfg)) = "full_model" ∧
       build_optimizer check g cfg model
       = torch_optim check
           (FullModelGradientClippingOptimizer base
              (CLIP_VALUE (CLIP_GRADIENTS (SOLVER cfg))))
           (build_params cfg model) (BASE_LR (SOLVER cfg)) momentum) ∧
    (full_model_enabled cfg = false →
       CLIP_TYPE (CLIP_GRADIENTS (SOLVER cfg)) = "full_model" →
       build_optimizer check g cfg model
       = torch_optim check base (build_params cfg model) (BASE_LR (SOLVER cfg)) momentum) ∧
    (CLIP_TYPE (CLIP_GRADIENTS (SOLVER cfg)) ≠ "full_model" →
       full_model_enabled cfg = false ∧
       build_optimizer check g cfg model
       = (o ← torch_optim check base (build_params cfg model) (BASE_LR (SOLVER cfg))
                momentum;
          g cfg o)) ∧
    (∀ o, build_optimizer check g cfg model = Ok o →
       CLIP_TYPE (CLIP_GRADIENTS (SOLVER cfg)) = "full_model" →
       opt_class o
       = (if full_model_enabled cfg
          then FullModelGradientClippingOptimizer base
                 (CLIP_VALUE (CLIP_GRADIENTS (SOLVER cfg)))
          else base) ∧
       (clipping_wrappers (opt_class o) ≤ 1)%nat).
Proof.
  intros Hsup.
  assert (∃ base momentum, is_base base ∧
    build_optimizer check g cfg model
    = (o ← torch_optim check (maybe_add_full_model_gradient_clipping cfg base)
             (build_params cfg model) (BASE_LR (SOLVER cfg)) momentum;
       if negb (String.eqb (CLIP_TYPE (CLIP_GRADIENTS (SOLVER cfg))) "full_model")
       then g cfg o else Ok o)) as (base & momentum & Hbase & ->).
  { destruct Hsup as [Hs|Hs].
    - exists SGD, (Some (MOMENTUM (SOLVER cfg))). split; [by left|].
      by apply build_optimizer_sgd.
    - exists AdamW, None. split; [by right|]. by apply build_optimizer_adamw. }
  exists base, momentum. split; [done|].
  rewrite maybe_add_full_model_enabled. split_and!.
  - intros Hen. pose proof (full_model_enabled_type _ Hen) as Hty.
    by rewrite Hen, Hty, bind_full_model.
  - intros Hen Hty. by rewrite Hen, Hty, bind_full_model.
  - intros Hty. split; [by apply full_model_enabled_off|].
    rewrite (full_model_enabled_off _ Hty).
    apply String.eqb_neq in Hty. by rewrite Hty.
  - intros o Ho Hty. rewrite Hty, bind_full_model in Ho.
    apply torch_optim_Ok in Ho as (_ & ->). cbn [opt_class]. split; [done|].
    destruct (full_model_enabled cfg); destruct Hbase as [-> | ->]; simpl; lia.
Qed.

Lemma clipping_full_model_adamw :
  ∃ momentum,
    build_optimizer torch_argument_check always_clip_per_group cfg_full_model shared_model
    = Ok (mkOptimizer (FullModelGradientClippingOptimizer AdamW 0.01)
            (build_params cfg_full_model shared_model) 0.0001 momentum).
Proof.
  destruct (build_optimizer_clipping torch_argument_check always_clip_per_group
              cfg_full_model shared_model)
    as (base & momentum & Hbase & Hon & _); [right; reflexivity|].
  destruct (Hon eq_refl) as [_ Heq].
  exists momentum. rewrite Heq. vm_compute in Heq. by injection Heq as <- <-.
Defined.

(** ** Claims about the evaluator and the train loader *)

Lemma os_path_join_inference a :
  os_path_join a "inference"
  = if String.eqb a "" || endswith_sep a then a +:+ "inference"
    else a +:+ "/inference".
Proof. reflexivity. Qed.

(** C9: without an output folder the evaluator is scoped to
    [os.path.join(cfg.OUTPUT_DIR, "inference")], that is OUTPUT_DIR
    followed by "inference", with a "/" in between unless OUTPUT_DIR is
    empty or already ends in one; a given folder is used unchanged.
    Dataset name, configuration and the distributed flag are forwarded. *)
Theorem build_evaluator_output_folder cfg dataset_name :
  build_evaluator cfg dataset_name None
  = mkCOCOEvaluator dataset_name cfg true (os_path_join (OUTPUT_DIR cfg) "inference") ∧
  ev_output_dir (build_evaluator cfg dataset_name None)
  = (if String.eqb (OUTPUT_DIR cfg) "" || endswith_sep (OUTPUT_DIR cfg)
     then OUTPUT_DIR cfg +:+ "inference"
     else OUTPUT_DIR cfg +:+ "/inference") ∧
  ∀ folder,
    build_evaluator cfg dataset_name (Some folder)
    = mkCOCOEvaluator dataset_name cfg true folder.
Proof.
  split_and!; [reflexivity | apply os_path_join_inference | reflexivity].
Qed.

Example build_evaluator_default_dir :
  ev_output_dir (build_evaluator cfg_full_model "uav_dataset1" None) = "./output/inference"
  ∧ ev_output_dir (build_evaluator cfg_rmsprop "uav_dataset1" None) = "out/inference"
  ∧ ev_output_dir (build_evaluator cfg_full_model "uav_dataset1" (Some "")) = "".
Proof. split_and!; reflexivity. Qed.

(** C8: the loader builder receives [DetrDatasetMapper(cfg, True)] when
    META_ARCHITECTURE is "Detr" and [None] for any other name; seen
    through a builder that hands back its mapper argument, a mapper is
    passed if and only if the name is "Detr". *)
Theorem build_train_loader_mapper {Loader : Type}
    (build_detection_train_loader : Cfg → option DetrDatasetMapper → Loader) cfg :
  (META_ARCHITECTURE (MODEL cfg) = "Detr" →
     build_train_loader build_detection_train_loader cfg
     = build_detection_train_loader cfg (Some (mkDetrDatasetMapper cfg true))) ∧
  (META_ARCHITECTURE (MODEL cfg) ≠ "Detr" →
     build_train_loader build_detection_train_loader cfg
     = build_detection_train_loader cfg None) ∧
  (build_train_loader (λ _ mapper, mapper) cfg = Some (mkDetrDatasetMapper cfg true)
     ↔ META_ARCHITECTURE (MODEL cfg) = "Detr") ∧
  (build_train_loader (λ _ mapper, mapper) cfg = None
     ↔ META_ARCHITECTURE (MODEL cfg) ≠ "Detr").
Proof.
  unfold build_train_loader.
  destruct (String.eqb_spec "Detr" (META_ARCHITECTURE (MODEL cfg))) as [Heq|Hne].
  - split_and!; [done | by intros ? | done | ].
    split; [done | by intros ?].
  - split_and!; [by intros ? | done | | done].
    split; [done | by intros ?].
Qed.

Lemma train_loader_mapper_detr :
  build_train_loader (λ cfg mapper, (cfg, mapper)) cfg_full_model
  = (cfg_full_model, Some (mkDetrDatasetMapper cfg_full_model true)) ∧
  build_train_loader (λ cfg mapper, (cfg, mapper)) cfg_rmsprop = (cfg_rmsprop, None).
Proof.
  split.
  - apply (build_train_loader_mapper (λ cfg mapper, (cfg, mapper)) cfg_full_model).
    reflexivity.
  - apply (build_train_loader_mapper (λ cfg mapper, (cfg, mapper)) cfg_rmsprop).
    discriminate.
Defined.

(** ** Claims about [setup] *)

Section SetupFacts.
Context {C : Type} `{!ConfigOps C}.




End SetupFacts.




(** ** Further facts about the parameter-group loop *)

Lemma first_trainable_ext m1 m2 memo l :
  (∀ v, requires_grad m2 v = requires_grad m1 v) →
  first_trainable m2 memo l = first_trainable m1 memo l.
Proof.
  intros Hrg. revert memo. induction l as [|[k v] l IH]; intros memo; [done|].
  simpl. rewrite Hrg. destruct (_ && _); by rewrite IH.
Qed.

Lemma first_trainable_app model memo l1 l2 :
  ∃ memo', first_trainable model memo (l1 ++ l2)
           = first_trainable model memo l1 ++ first_trainable model memo' l2.
Proof.
  revert memo. induction l1 as [|[k v] l1 IH]; intros memo; [by exists memo|].
  simpl. destruct (_ && _).
  - destruct (IH ({[v]} ∪ memo)) as [memo' ->]. by exists memo'.
  - apply IH.
Qed.

(** An iteration without frozen entries, without repetition and
    without tensors already in [memo] is kept whole. *)
Lemma first_trainable_all model memo l :
  (∀ key value, (key, value) ∈ l → requires_grad model value = true) →
  NoDup l.*2 → (∀ v, v ∈ l.*2 → v ∉ memo) →
  first_trainable model memo l = l.
Proof.
  revert memo. induction l as [|[k v] l IH]; intros memo Hrg Hnd Hm; [done|].
  rewrite fmap_cons in Hnd. apply NoDup_cons in Hnd as [Hv Hnd]. simpl.
  rewrite (Hrg k v) by left.
  rewrite bool_decide_true by (apply Hm; left). simpl. f_equal.
  apply IH; [|done|].
  - intros key value Hin. apply (Hrg key value). by right.
  - intros w Hw. apply not_elem_of_union. split.
    + intros ->%elem_of_singleton. done.
    + apply Hm. by right.
Qed.

Lemma first_trainable_idem model l :
  first_trainable model ∅ (first_trainable model ∅ l) = first_trainable model ∅ l.
Proof.
  apply first_trainable_all.
  - intros key value Hin. by apply first_trainable_elem in Hin as (? & _).
  - apply first_trainable_NoDup.
  - intros v _. apply not_elem_of_empty.
Qed.

Lemma first_trainable_length model memo l :
  (length (first_trainable model memo l) ≤ length l)%nat.
Proof. apply sublist_length, first_trainable_sublist. Qed.

Lemma first_trainable_full model memo l :
  length (first_trainable model memo l) = length l →
  first_trainable model memo l = l.
Proof.
  revert memo. induction l as [|[k v] l IH]; intros memo; [done|]. simpl.
  destruct (_ && _); simpl.
  - intros [= Hlen]. f_equal. by apply IH.
  - intros Hlen. pose proof (first_trainable_length model memo l). lia.
Qed.

Lemma fold_loop_memo cfg model l params memo :
  snd (fold_left (loop_body cfg model) l (params, memo))
  = memo ∪ list_to_set (first_trainable model memo l).*2.
Proof.
  revert params memo. induction l as [|[key value] l IH]; intros params memo.
  - simpl. set_solver.
  - cbn [fold_left first_trainable snd].
    destruct (requires_grad model value) eqn:Hrg; cbn [andb].
    + case_bool_decide as Hm.
      * rewrite loop_body_group by done. rewrite IH, fmap_cons. simpl. set_solver.
      * rewrite loop_body_skip; [apply IH|]. by right.
    + rewrite loop_body_skip; [apply IH|]. by left.
Qed.

(** X1: the list of groups is empty exactly when the iteration yields
    no trainable tensor (an empty module, or one with every parameter
    frozen). *)
Theorem build_params_nil_iff cfg model :
  build_params cfg model = [] ↔
  ∀ key value, (key, value) ∈ named_parameters model → requires_grad model value = false.
Proof.
  rewrite build_params_first_trainable. split.
  - intros Hnil key value Hin.
    destruct (requires_grad model value) eqn:Hrg; [|done].
    apply fmap_nil_inv in Hnil.
    assert (value ∈ (first_trainable model ∅ (named_parameters model)).*2) as Hv.
    { apply first_trainable_complete; [|done|apply not_elem_of_empty].
      apply list_elem_of_fmap. by exists (key, value). }
    rewrite Hnil in Hv. by apply elem_of_nil in Hv.
  - intros Hfrozen.
    destruct (first_trainable model ∅ (named_parameters model)) as [|[k v] rest] eqn:E;
      [done|].
    assert ((k, v) ∈ first_trainable model ∅ (named_parameters model)) as Hin
      by (rewrite E; left).
    apply first_trainable_elem in Hin as (Hrg & _ & l1 & l2 & Hl & _).
    rewrite (Hfrozen k v) in Hrg; [done|].
    rewrite Hl. apply elem_of_app. right. left.
Qed.

(** X2: parameters appended to the iteration leave the groups emitted
    before them in place: the groups of the shorter iteration are a
    prefix of the groups of the longer one. *)
Theorem build_params_prefix cfg m1 m2 extra :
  named_parameters m2 = named_parameters m1 ++ extra →
  (∀ v, requires_grad m2 v = requires_grad m1 v) →
  build_params cfg m1 `prefix_of` build_params cfg m2.
Proof.
  intros Hnp Hrg. rewrite !build_params_first_trainable, Hnp.
  rewrite (first_trainable_ext m1 m2) by done.
  destruct (first_trainable_app m1 ∅ (named_parameters m1) extra) as [memo' ->].
  rewrite fmap_app. by eexists.
Qed.

Lemma prefix_shared_model :
  build_params cfg_full_model alias_model
  `prefix_of` build_params cfg_full_model
    (mkModule (named_parameters alias_model ++ [("class_embed.weight", 4)]) (λ _, true)).
Proof.
  apply (build_params_prefix cfg_full_model alias_model
           (mkModule (named_parameters alias_model ++ [("class_embed.weight", 4)])
              (λ _, true)) [("class_embed.weight", 4)]);
    [reflexivity | intros v; reflexivity].
Defined.

(** X3: iterating over the kept entries alone (frozen entries and later
    aliases removed) gives the same groups. *)
Theorem build_params_kept_only cfg model :
  build_params cfg
    (mkModule (first_trainable model ∅ (named_parameters model)) (requires_grad model))
  = build_params cfg model.
Proof.
  rewrite !build_params_first_trainable. simpl.
  rewrite (first_trainable_ext model) by done.
  by rewrite first_trainable_idem.
Qed.

(** X4: at every point of the iteration [memo] holds exactly the
    tensors of the groups emitted so far, and these are the trainable
    tensors yielded so far. *)
Theorem memo_holds_emitted_tensors cfg model l v :
  (v ∈ (fold_left (loop_body cfg model) l ([], ∅)).2 ↔
   ∃ g, g ∈ (fold_left (loop_body cfg model) l ([], ∅)).1 ∧ v ∈ pg_params g) ∧
  (v ∈ (fold_left (loop_body cfg model) l ([], ∅)).2 ↔
   v ∈ l.*2 ∧ requires_grad model v = true).
Proof.
  rewrite fold_loop_memo, fold_loop_body. simpl.
  rewrite union_empty_l_L, elem_of_list_to_set. split.
  - split.
    + intros ([k w] & -> & Hin)%list_elem_of_fmap. exists (group_of cfg (k, w)).
      split; [|simpl; left]. apply list_elem_of_fmap. eauto.
    + intros (g & ([k w] & -> & Hin)%list_elem_of_fmap & Hv).
      simpl in Hv. apply list_elem_of_singleton in Hv as ->.
      apply list_elem_of_fmap. by exists (k, w).
  - split.
    + intros ([k w] & -> & Hin)%list_elem_of_fmap. simpl.
      apply first_trainable_elem in Hin as (Hrg & _ & l1 & l2 & -> & _).
      split; [|done]. rewrite fmap_app, fmap_cons. apply elem_of_app. right. left.
    + intros [Hin Hrg]. apply first_trainable_complete; [done..|apply not_elem_of_empty].
Qed.

(** X5: there are never more groups than yielded entries, and there is
    one group per entry exactly when no entry is frozen and no tensor is
    yielded twice. *)
Theorem build_params_length cfg model :
  (length (build_params cfg model) ≤ length (named_parameters model))%nat ∧
  (length (build_params cfg model) = length (named_parameters model) ↔
   (∀ key value, (key, value) ∈ named_parameters model → requires_grad model value = true)
   ∧ NoDup (named_parameters model).*2).
Proof.
  rewrite build_params_first_trainable, length_fmap.
  split; [apply first_trainable_length|]. split.
  - intros Hfull%first_trainable_full. split.
    + intros key value Hin. rewrite <- Hfull in Hin.
      by apply first_trainable_elem in Hin as (? & _).
    + rewrite <- Hfull. apply first_trainable_NoDup.
  - intros [Hrg Hnd]. rewrite first_trainable_all; [done..|].
    intros v _. apply not_elem_of_empty.
Qed.

(** X6: the rate of a group is the scaled one exactly when "backbone"
    occurs somewhere in the first name of its tensor, at any position,
    provided scaling changes the base rate at all. *)
Theorem backbone_anywhere_in_name cfg model key value g :
  (BASE_LR (SOLVER cfg) * BACKBONE_MULTIPLIER (SOLVER cfg))%float ≠ BASE_LR (SOLVER cfg) →
  first_name_of model key value →
  g ∈ build_params cfg model →
  value ∈ pg_params g →
  (pg_lr g = (BASE_LR (SOLVER cfg) * BACKBONE_MULTIPLIER (SOLVER cfg))%float
   ↔ ∃ pre post, key = pre +:+ "backbone" +:+ post).
Proof.
  intros Hscale Hfirst Hg Hv.
  rewrite (group_by_first_name cfg model key value g Hfirst Hg Hv).
  rewrite <- str_in_spec. unfold group_of, lr_for. simpl.
  destruct (str_in "backbone" key); split; [done|done|congruence|done].
Qed.

Lemma backbone_anywhere_shared_model :
  first_name_of shared_model "backbone.0.body.conv1.weight" 2 ∧
  ∃ pre post, "backbone.0.body.conv1.weight" = pre +:+ "backbone" +:+ post.
Proof.
  assert (first_name_of shared_model "backbone.0.body.conv1.weight" 2) as Hf.
  { exists [("transformer.embed.weight", 1)],
      (tail (tail (named_parameters shared_model))).
    split; [reflexivity|]. simpl. by intros ?%list_elem_of_singleton. }
  split; [exact Hf|].
  apply (backbone_anywhere_in_name cfg_full_model shared_model
           "backbone.0.body.conv1.weight" 2
           (mkParamGroup [2] (0.0001 * 0.1) 0.0001)).
  - intros Heq. apply (f_equal (λ x, PrimFloat.ltb x 0.00005)) in Heq.
    vm_compute in Heq. discriminate.
  - exact Hf.
  - change (build_params cfg_full_model shared_model)
      with [mkParamGroup [1] 0.0001%float 0.0001%float;
            mkParamGroup [2] (0.0001 * 0.1)%float 0.0001%float;
            mkParamGroup [4] 0.0001%float 0.0001%float].
    right. left.
  - left.
  - reflexivity.
Defined.

(** ** Further facts about the optimizer *)

Lemma build_optimizer_full_model_on check g cfg model o :
  full_model_enabled cfg = true →
  build_optimizer check g cfg model = Ok o →
  ∃ base momentum,
    is_base base ∧
    o = mkOptimizer
          (FullModelGradientClippingOptimizer base (CLIP_VALUE (CLIP_GRADIENTS (SOLVER cfg))))
          (build_params cfg model) (BASE_LR (SOLVER cfg)) momentum.
Proof.
  intros Hen. pose proof (full_model_enabled_type _ Hen) as Hty.
  unfold build_optimizer. rewrite !maybe_add_full_model_enabled, Hen, Hty.
  destruct (String.eqb _ "SGD"); [|destruct (String.eqb _ "ADAMW")];
    rewrite ?bind_full_model; [| |discriminate].
  - intros (_ & ->)%torch_optim_Ok. eexists SGD, _. split; [by left|done].
  - intros (_ & ->)%torch_optim_Ok. eexists AdamW, _. split; [by right|done].
Qed.

(** X7: on an optimizer that [build_optimizer] wrapped for full-model
    clipping, one [step] clips once, with CLIP_VALUE as the bound and
    over a list that names every trainable yielded tensor exactly once
    and no other, then runs the base class's step on the clipped state;
    the loss the base step may return is dropped. *)
Theorem step_clips_each_tensor_once {S Closure Loss : Type}
    (clip_grad_norm_ : list ParamRef → float → S → S)
    (torch_step : OptimClass → Optimizer → option Closure → S → option Loss * S)
    check g cfg model o closure s :
  full_model_enabled cfg = true →
  build_optimizer check g cfg model = Ok o →
  ∃ base tensors,
    is_base base ∧
    step clip_grad_norm_ torch_step (opt_class o) o closure s
    = (None,
       (torch_step base o closure
          (clip_grad_norm_ tensors (CLIP_VALUE (CLIP_GRADIENTS (SOLVER cfg))) s)).2) ∧
    NoDup tensors ∧
    ∀ v, v ∈ tensors ↔ v ∈ (named_parameters model).*2 ∧ requires_grad model v = true.
Proof.
  intros Hen Hbuild.
  destruct (build_optimizer_full_model_on check g cfg model o Hen Hbuild)
    as (base & momentum & Hbase & ->).
  exists base, (first_trainable model ∅ (named_parameters model)).*2.
  split_and!; [done| |apply first_trainable_NoDup|].
  - cbn [opt_class param_groups step]. rewrite build_params_tensors.
    by destruct Hbase as [-> | ->].
  - intros v. split.
    + intros ([k w] & -> & Hin)%list_elem_of_fmap. simpl.
      apply first_trainable_elem in Hin as (Hrg & _ & l1 & l2 & -> & _).
      split; [|done]. rewrite fmap_app, fmap_cons. apply elem_of_app. right. left.
    + intros [Hin Hrg]. apply first_trainable_complete; [done..|apply not_elem_of_empty].
Qed.

Lemma step_clips_shared_model :
  ∃ tensors,
    step (λ ps bound (s : list (list ParamRef * float)), (ps, bound) :: s)
         (λ _ _ (_ : option ()) s, (Some 1%float, s))
         (FullModelGradientClippingOptimizer AdamW 0.01)
         (mkOptimizer (FullModelGradientClippingOptimizer AdamW 0.01)
            (build_params cfg_full_model shared_model) 0.0001 None)
         None []
    = (None, [(tensors, 0.01%float)]) ∧ tensors = [1; 2; 4].
Proof.
  destruct (step_clips_each_tensor_once
              (λ ps bound (s : list (list ParamRef * float)), (ps, bound) :: s)
              (λ _ _ (_ : option ()) s, (Some 1%float, s))
              torch_argument_check always_clip_per_group cfg_full_model shared_model
              (mkOptimizer (FullModelGradientClippingOptimizer AdamW 0.01)
                 (build_params cfg_full_model shared_model) 0.0001 None)
              None [] eq_refl eq_refl)
    as (base & tensors & _ & Hstep & _).
  exists [1; 2; 4]. split; [|reflexivity]. reflexivity.
Defined.

(** X8: [build_optimizer] raises in three situations only: the
    optimizer type is neither "SGD" nor "ADAMW" (the
    [NotImplementedError]); the torch constructor refuses the class,
    groups, rate and momentum it is called with; or CLIP_TYPE is not
    "full_model" and the framework's clipping raises on the optimizer
    constructed.  The exception is the one of that situation. *)
Theorem build_optimizer_raises_iff check g cfg model e :
  build_optimizer check g cfg model = Raise e ↔
  (OPTIMIZER (SOLVER cfg) ≠ "SGD" ∧ OPTIMIZER (SOLVER cfg) ≠ "ADAMW" ∧
   e = NotImplementedError ("no optimizer type " +:+ OPTIMIZER (SOLVER cfg))) ∨
  (∃ base momentum,
     (OPTIMIZER (SOLVER cfg) = "SGD" ∧ base = SGD
        ∧ momentum = Some (MOMENTUM (SOLVER cfg))
      ∨ OPTIMIZER (SOLVER cfg) = "ADAMW" ∧ base = AdamW ∧ momentum = None) ∧
     (check (maybe_add_full_model_gradient_clipping cfg base) (build_params cfg model)
        (BASE_LR (SOLVER cfg)) momentum = Some e
      ∨ check (maybe_add_full_model_gradient_clipping cfg base) (build_params cfg model)
          (BASE_LR (SOLVER cfg)) momentum = None ∧
        CLIP_TYPE (CLIP_GRADIENTS (SOLVER cfg)) ≠ "full_model" ∧
        g cfg (mkOptimizer base (build_params cfg model) (BASE_LR (SOLVER cfg)) momentum)
        = Raise e)).
Proof.
  assert (∀ base momentum,
    (o ← torch_optim check (maybe_add_full_model_gradient_clipping cfg base)
           (build_params cfg model) (BASE_LR (SOLVER cfg)) momentum;
     if negb (String.eqb (CLIP_TYPE (CLIP_GRADIENTS (SOLVER cfg))) "full_model")
     then g cfg o else Ok o) = Raise e ↔
    (check (maybe_add_full_model_gradient_clipping cfg base) (build_params cfg model)
       (BASE_LR (SOLVER cfg)) momentum = Some e
     ∨ check (maybe_add_full_model_gradient_clipping cfg base) (build_params cfg model)
         (BASE_LR (SOLVER cfg)) momentum = None ∧
       CLIP_TYPE (CLIP_GRADIENTS (SOLVER cfg)) ≠ "full_model" ∧
       g cfg (mkOptimizer base (build_params cfg model) (BASE_LR (SOLVER cfg)) momentum)
       = Raise e)) as Hcall.
  { intros base momentum. unfold torch_optim.
    destruct (check _ _ _ _) as [e'|] eqn:Hc; cbn [mbind Res_bind].
    - split; [intros [= ->]; by left|]. intros [[= ->]|(? & _)]; done.
    - destruct (String.eqb_spec (CLIP_TYPE (CLIP_GRADIENTS (SOLVER cfg))) "full_model")
        as [Hty|Hty]; cbn [negb].
      + split; [discriminate|]. intros [?|(_ & ? & _)]; done.
      + rewrite maybe_add_full_model_enabled, (full_model_enabled_off _ Hty).
        split; [intros Hg; by right|]. intros [?|(_ & _ & ?)]; done. }
  destruct (String.eqb_spec (OPTIMIZER (SOLVER cfg)) "SGD") as [Hs|Hs];
    [|destruct (String.eqb_spec (OPTIMIZER (SOLVER cfg)) "ADAMW") as [Ha|Ha]].
  - rewrite build_optimizer_sgd, Hcall by done. split.
    + intros Hr. right. eexists _, _. split; [left; done|done].
    + intros [(? & _)|(base & momentum & [(_ & -> & ->)|(Ha & _)] & Hr)]; [done|done|].
      rewrite Hs in Ha. discriminate.
  - rewrite build_optimizer_adamw, Hcall by done. split.
    + intros Hr. right. eexists _, _. split; [right; done|done].
    + intros [(_ & ? & _)|(base & momentum & [(? & _)|(_ & -> & ->)] & Hr)]; done.
  - unfold build_optimizer. apply String.eqb_neq in Hs as Hs', Ha as Ha'.
    rewrite Hs', Ha'. cbn [mbind Res_bind]. split.
    + intros [= <-]. by left.
    + intros [(_ & _ & ->)|(base & momentum & [(? & _)|(? & _)] & _)]; done.
Qed.

(** ** Further facts about [setup] and [main] *)

Section MainFacts.
Context {C Net Trainer Results : Type}.
Context `{!ConfigOps C, !TrainerOps C Net Trainer Results}.

(** X9: [setup] raises exactly the exception of its first failing
    step: the file merge, else the override merge, else
    [default_setup] on the frozen node; it adds none of its own. *)
Theorem setup_raises_iff (args : Args) e :
  setup args = Raise e ↔
  merge_from_file (config_file args) (add_detr_config get_cfg) = Raise e ∨
  (∃ c_file,
     merge_from_file (config_file args) (add_detr_config get_cfg) = Ok c_file ∧
     merge_from_list (opts args) c_file = Raise e) ∨
  (∃ c_file c_opts,
     merge_from_file (config_file args) (add_detr_config get_cfg) = Ok c_file ∧
     merge_from_list (opts args) c_file = Ok c_opts ∧
     default_setup (freeze c_opts) args = Raise e).
Proof.
  unfold setup.
  destruct (merge_from_file _ _) as [c1|e1] eqn:H1; simpl.
  - destruct (merge_from_list _ _) as [c2|e2] eqn:H2; simpl.
    + destruct (default_setup _ _) as [[]|e3] eqn:H3; simpl.
      * split; [discriminate|].
        intros [?|[(c & [= <-] & ?)|(c & c' & [= <-] & ? & ?)]]; congruence.
      * split.
        -- intros [= <-]. right. right. by exists c1, c2.
        -- intros [?|[(c & [= <-] & ?)|(c & c' & [= <-] & ? & ?)]]; congruence.
    + split.
      * intros [= <-]. right. left. by exists c1.
      * intros [?|[(c & [= <-] & ?)|(c & c' & [= <-] & ? & ?)]]; congruence.
  - split.
    + intros [= <-]. by left.
    + intros [?|[(c & ? & ?)|(c & c' & ? & ? & ?)]]; congruence.
Qed.

Ltac run_main :=
  unfold main, mbind, Run_bind, mret, Run_ret, call, eval_expr;
  repeat (case_match; simplify_eq/=).

(** X10: the calls [main] itself makes, whatever they return or raise:
    [setup] comes first and once, and then [main] makes either its
    evaluation calls or its training calls, never both.  With
    [eval_only] it does not construct the trainer, resume it or call
    [train]; without it, it does not call [Trainer.build_model], the
    checkpointer, [Trainer.test] or [verify_results].  What the
    framework does inside a call (the trainer builds a model of its own)
    is not part of the log. *)
Theorem main_evaluates_or_trains (args : Namespace) log :
  ∃ rest,
    (main args log).1 = log ++ ESetup :: rest ∧
    (ESetup ∉ rest) ∧
    (if eval_only args
     then Forall (λ ev, is_training_event ev = false) rest
     else Forall (λ ev, is_evaluation_event ev = false) rest).
Proof.
  run_main; rewrite <- ?app_assoc; simpl;
    (eexists; split; [reflexivity|]; split;
     [rewrite ?not_elem_of_cons; split_and?; (done || apply not_elem_of_nil)
     |repeat constructor]).
Qed.

(** X11: [main] itself calls [verify_results] only in evaluation mode
    and on the main process (calls made inside [trainer.train()] are the
    framework's and are not covered).  An evaluation result that [main]
    returns is the one [test] produced on the model after the
    checkpointer, given [cfg.OUTPUT_DIR], [cfg.MODEL.WEIGHTS] and the
    resume flag, loaded it; both attribute reads succeeded, and on the
    main process the result has passed [verify_results]. *)
Theorem main_returns_tested_results (args : Namespace) log log' r :
  main args log = (log', r) →
  (EVerifyResults ∈ log' → EVerifyResults ∉ log →
     eval_only args = true ∧ is_main_process = true) ∧
  (∀ res, r = Ok res → eval_only args = true →
     ∃ cfg model save_dir weights model',
       setup (setup_args args) = Ok cfg ∧
       build_model cfg = Ok model ∧
       cfg_OUTPUT_DIR cfg = Ok save_dir ∧
       cfg_MODEL_WEIGHTS cfg = Ok weights ∧
       checkpointer_resume_or_load model save_dir weights (resume args) = Ok model' ∧
       test cfg model' = Ok res ∧
       (is_main_process = true → verify_results cfg res = Ok ())).
Proof.
  assert (∀ (l : list Event) evs,
    EVerifyResults ∈ l ++ evs → EVerifyResults ∉ l → EVerifyResults ∈ evs) as Hnew.
  { intros l evs [?|?]%elem_of_app ?; done. }
  intros Hmain. split.
  - revert Hmain. run_main; intros ? Hin Hnin; simplify_eq;
      rewrite <- ?app_assoc in Hin; pose proof (Hnew _ _ Hin Hnin) as Hev;
      simpl in Hev; rewrite ?elem_of_cons, elem_of_nil in Hev;
      destruct_or?; done.
  - intros res -> Hev. revert Hmain. unfold main. rewrite Hev.
    run_main; intros ?; simplify_eq;
      eexists _, _, _, _, _; split_and!; try done.
    intros _. match goal with H : verify_results _ _ = Ok ?u |- _ => by destruct u end.
Qed.

(** X12: when [setup] raises, [main] raises the same exception and
    calls nothing else: the configuration is not printed and no model
    or trainer is built. *)
Theorem main_setup_failure (args : Namespace) e log :
  setup (setup_args args) = Raise e →
  main args log = (log ++ [ESetup], Raise e).
Proof. intros Hsetup. unfold main, mbind, Run_bind, call. by rewrite Hsetup. Qed.

(** X13: in training mode with a configuration that [setup] returned,
    [main] builds the trainer from it, resumes with the [resume] flag
    and hands back whatever [train] returns or raises; a trainer that
    cannot be built or resumed ends the run before [train]. *)
Theorem main_training_run (args : Namespace) cfg log :
  eval_only args = false →
  setup (setup_args args) = Ok cfg →
  main args log =
    match new_Trainer cfg with
    | Raise e => (log ++ [ESetup; EPrint ("cfg: " +:+ cfg_repr cfg); ETrainer], Raise e)
    | Ok trainer =>
        match trainer_resume_or_load trainer (resume args) with
        | Raise e =>
            (log ++ [ESetup; EPrint ("cfg: " +:+ cfg_repr cfg); ETrainer;
                     ETrainerResumeOrLoad (resume args)], Raise e)
        | Ok trainer' =>
            (log ++ [ESetup; EPrint ("cfg: " +:+ cfg_repr cfg); ETrainer;
                     ETrainerResumeOrLoad (resume args); ETrain], train trainer')
        end
    end.
Proof.
  intros Hev Hsetup. unfold main, mbind, Run_bind, call. rewrite Hsetup, Hev.
  destruct (new_Trainer cfg) as [t|e]; [|by rewrite <- !app_assoc].
  destruct (trainer_resume_or_load t (resume args)) as [t'|e];
    by rewrite <- !app_assoc.
Qed.

End MainFacts.

Lemma main_eval_detr :
  (@main DictCfg nat nat nat (dict_config d2_defaults_weights detr_extension detr_files)
     (dict_trainer true) detr_eval_args []).2 = Ok 42 ∧
  eval_only detr_eval_args = true ∧
  @is_main_process DictCfg nat nat nat (dict_trainer true) = true.
Proof.
  split; [vm_compute; reflexivity|].
  destruct (@main DictCfg nat nat nat
              (dict_config d2_defaults_weights detr_extension detr_files)
              (dict_trainer true) detr_eval_args []) as [log' r] eqn:Hmain.
  apply (@main_returns_tested_results DictCfg nat nat nat
           (dict_config d2_defaults_weights detr_extension detr_files) (dict_trainer true)
           detr_eval_args [] log' r Hmain).
  - vm_compute in Hmain. injection Hmain as <- _. repeat constructor.
  - apply not_elem_of_nil.
Defined.

(** Without MODEL.WEIGHTS in the configuration the read raises after the
    model was built, and nothing is loaded or tested. *)
Example main_eval_missing_weights :
  @main DictCfg nat nat nat (dict_config d2_defaults detr_extension detr_files)
    (dict_trainer true) detr_eval_args []
  = ([ESetup; EPrint "cfg: Detr"; EBuildModel], Raise (AttributeError "WEIGHTS")).
Proof. vm_compute. reflexivity. Qed.

Lemma main_missing_file :
  @main DictCfg nat nat nat (dict_config d2_defaults detr_extension detr_files)
    (dict_trainer true) missing_file_args []
  = ([ESetup], Raise (FrameworkError "No such file: configs/missing.yaml")).
Proof.
  apply (@main_setup_failure DictCfg nat nat nat
           (dict_config d2_defaults detr_extension detr_files) (dict_trainer true)
           missing_file_args (FrameworkError "No such file: configs/missing.yaml") []).
  vm_compute. reflexivity.
Defined.

Lemma main_train_detr :
  ∃ cfg,
    @setup DictCfg (dict_config d2_defaults detr_extension detr_files) detr_args = Ok cfg ∧
    @main DictCfg nat nat nat (dict_config d2_defaults detr_extension detr_files)
      (dict_trainer false) (mkNamespace detr_args false true) []
    = ([ESetup; EPrint "cfg: Detr"; ETrainer; ETrainerResumeOrLoad true; ETrain], Ok 14).
Proof.
  destruct (@setup DictCfg (dict_config d2_defaults detr_extension detr_files) detr_args)
    as [cfg|e] eqn:Hsetup; [|vm_compute in Hsetup; discriminate].
  exists cfg. split; [reflexivity|].
  rewrite (@main_training_run DictCfg nat nat nat
             (dict_config d2_defaults detr_extension detr_files) (dict_trainer false)
             (mkNamespace detr_args false true) cfg [] eq_refl Hsetup).
  vm_compute in Hsetup. injection Hsetup as <-. vm_compute. reflexivity.
Defined.

(** ** A further fact about the evaluator *)

Lemma append_assoc_str (a b c : string) : (a +:+ b) +:+ c = a +:+ (b +:+ c).
Proof. induction a as [|x a IH]; [done|]. by rewrite !append_String, IH. Qed.

Lemma length_append_str (a b : string) :
  String.length (a +:+ b) = String.length a + String.length b.
Proof. induction a as [|x a IH]; [done|]. rewrite append_String. simpl. by rewrite IH. Qed.

(** X14: the folder an evaluator gets by default extends OUTPUT_DIR,
    ends in "inference" and is never OUTPUT_DIR itself, whatever
    OUTPUT_DIR is (empty, or with or without a trailing "/"). *)
Theorem build_evaluator_default_below_output_dir cfg dataset_name :
  startswith (OUTPUT_DIR cfg) (ev_output_dir (build_evaluator cfg dataset_name None)) = true ∧
  (∃ pre, ev_output_dir (build_evaluator cfg dataset_name None) = pre +:+ "inference") ∧
  ev_output_dir (build_evaluator cfg dataset_name None) ≠ OUTPUT_DIR cfg.
Proof.
  unfold build_evaluator. cbn [ev_output_dir]. rewrite os_path_join_inference.
  destruct (_ || _); split_and!.
  - apply startswith_spec. by eexists.
  - by eexists.
  - intros Heq%(f_equal String.length). rewrite length_append_str in Heq. simpl in Heq. lia.
  - apply startswith_spec. by eexists.
  - exists (OUTPUT_DIR cfg +:+ "/"). by rewrite append_assoc_str.
  - intros Heq%(f_equal String.length). rewrite length_append_str in Heq. simpl in Heq. lia.
Qed.
